(** * The thread wrapper of src/threading/thread.cpp

    A shallow embedding of class [Thread]: the lifecycle operations
    [start], [stop], [wait], [kill], [getReturnValue], the trampoline
    [threadProc], and the two platform services [getNumberOfProcessors]
    and [setPriority].

    The instance is a record with one field per data member.  Every member
    function is a computation in a small state monad whose results say
    whether the call returns, never returns, trips its assertion, or
    dereferences a null [m_thread_obj].  What the operating system and the
    caller-supplied [run()] do is an explicit input of the model. *)

From Stdlib Require Import ZArith Bool List String Lia.
Import ListNotations.
Local Open Scope Z_scope.

Module Thread.

(** ** Data *)

(** [void *]: an address, with [NULL] the null pointer. *)
Definition ptr := Z.
Definition NULL : ptr := 0.

(** What the overridden [run()] of one native context does: the value it
    returns when left alone ([None]: it never returns), and whether it
    passes a cancellation point, so that a pending [pthread_cancel] ends it
    before it returns. *)
Record work := mkWork {
  w_result : option ptr;
  w_cancellable : bool
}.

(** The [std::thread] object behind [m_thread_obj]: its context is either
    still inside [run()] (possibly with a cancellation request pending) or
    has ended. *)
Inductive std_thread :=
| Executing (w : work) (cancel_pending : bool)
| Ended.

(** The data members of [Thread].  A mutex is [true] while it is held. *)
Record state := mkState {
  m_name : string;
  m_retval : ptr;
  m_joinable : bool;
  m_request_stop : bool;
  m_running : bool;
  m_mutex : bool;
  m_start_finished_mutex : bool;
  m_thread_obj : option std_thread
}.

Definition set_retval (v : ptr) (s : state) : state :=
  mkState (m_name s) v (m_joinable s) (m_request_stop s) (m_running s)
          (m_mutex s) (m_start_finished_mutex s) (m_thread_obj s).

Definition set_joinable (b : bool) (s : state) : state :=
  mkState (m_name s) (m_retval s) b (m_request_stop s) (m_running s)
          (m_mutex s) (m_start_finished_mutex s) (m_thread_obj s).

Definition set_request_stop (b : bool) (s : state) : state :=
  mkState (m_name s) (m_retval s) (m_joinable s) b (m_running s)
          (m_mutex s) (m_start_finished_mutex s) (m_thread_obj s).

Definition set_running (b : bool) (s : state) : state :=
  mkState (m_name s) (m_retval s) (m_joinable s) (m_request_stop s) b
          (m_mutex s) (m_start_finished_mutex s) (m_thread_obj s).

Definition set_mutex (b : bool) (s : state) : state :=
  mkState (m_name s) (m_retval s) (m_joinable s) (m_request_stop s)
          (m_running s) b (m_start_finished_mutex s) (m_thread_obj s).

Definition set_start_finished_mutex (b : bool) (s : state) : state :=
  mkState (m_name s) (m_retval s) (m_joinable s) (m_request_stop s)
          (m_running s) (m_mutex s) b (m_thread_obj s).

Definition set_thread_obj (t : option std_thread) (s : state) : state :=
  mkState (m_name s) (m_retval s) (m_joinable s) (m_request_stop s)
          (m_running s) (m_mutex s) (m_start_finished_mutex s) t.

(** ** The monad of member functions *)

(** A call returns a value in a new state, never returns ([Blocks]), fails
    its [assert] ([Aborts]), or has no defined behaviour ([Undefined]:
    a null [m_thread_obj] is dereferenced, or [int] arithmetic overflows). *)
Inductive outcome (A : Type) : Type :=
| Ret (a : A) (s : state)
| Blocks
| Aborts
| Undefined.

Arguments Ret {A} a s.
Arguments Blocks {A}.
Arguments Aborts {A}.
Arguments Undefined {A}.

Definition M (A : Type) : Type := state -> outcome A.

Definition ret {A} (a : A) : M A := fun s => Ret a s.

Definition bind {A B} (c : M A) (k : A -> M B) : M B :=
  fun s =>
    match c s with
    | Ret a s' => k a s'
    | Blocks => Blocks
    | Aborts => Aborts
    | Undefined => Undefined
    end.

Definition get {A} (field : state -> A) : M A := fun s => Ret (field s) s.
Definition modify (f : state -> state) : M unit := fun s => Ret tt (f s).
Definition blocks {A} : M A := fun _ => Blocks.
Definition undefined {A} : M A := fun _ => Undefined.

Declare Scope thread_scope.
Delimit Scope thread_scope with thread.
Notation "x <- c ;; k" := (bind c (fun x => k))
  (at level 61, c at next level, right associativity) : thread_scope.
Notation "c ;; k" := (bind c (fun _ => k))
  (at level 61, right associativity) : thread_scope.
Local Open Scope thread_scope.

(** [assert(cond)]. *)
Definition assert (cond : bool) : M unit :=
  fun s => if cond then Ret tt s else Aborts.

(** [MutexAutoLock lock(m_mutex)]: the scope waits for the instance lock,
    holds it for the body and releases it on every way out. *)
Definition MutexAutoLock {A} (body : M A) : M A :=
  fun s =>
    if m_mutex s then Blocks
    else match body (set_mutex true s) with
         | Ret a s' => Ret a (set_mutex false s')
         | Blocks => Blocks
         | Aborts => Aborts
         | Undefined => Undefined
         end.

(** [m_start_finished_mutex.try_lock()]: the mutex is held afterwards
    whether or not it was before; the result is ignored by every caller. *)
Definition try_lock_start_finished : M unit :=
  modify (set_start_finished_mutex true).

(** [m_start_finished_mutex.unlock()]. *)
Definition unlock_start_finished : M unit :=
  modify (set_start_finished_mutex false).

(** [m_start_finished_mutex.lock()]: waits while the mutex is held. *)
Definition lock_start_finished : M unit :=
  fun s =>
    if m_start_finished_mutex s then Blocks
    else Ret tt (set_start_finished_mutex true s).

(** ** Construction *)

(** Modelled from the spec: the declaration of [m_thread_obj] is in
    threading/thread.h, which is not among the sources, and the constructor
    has no initialiser for it; the spec's data model has the native handle
    null when no thread is active.  The other members are initialised as
    the constructor's initialiser list has them. *)
Definition Thread (name : string) : state :=
  {| m_name := name;
     m_retval := NULL;
     m_joinable := false;
     m_request_stop := false;
     m_running := false;
     m_mutex := false;
     m_start_finished_mutex := false;
     m_thread_obj := None |}.

(** ** The trampoline *)

(** [threadProc] up to the call of [run()]: [m_running = true], then the
    context takes the start-finished mutex.  (Naming the context and the
    calls to the logger do not touch the instance.) *)
Definition threadProc_enter : M unit :=
  modify (set_running true) ;;
  lock_start_finished.

(** [threadProc] from the return of [run()] with [v]:
    [m_retval = run(); m_running = false]. *)
Definition threadProc_leave (v : ptr) : M unit :=
  modify (set_retval v) ;;
  modify (set_running false).

(** The work function returns between two calls of the owner: an
    environment step, enabled while the context is inside [run()] with no
    cancellation request pending and a [run()] that returns. *)
Definition run_returns (s : state) : option state :=
  match m_thread_obj s with
  | Some (Executing w false) =>
      match w_result w with
      | Some v =>
          match threadProc_leave v s with
          | Ret _ s' => Some (set_thread_obj (Some Ended) s')
          | _ => None
          end
      | None => None
      end
  | _ => None
  end.

(** ** start *)

(** What [new std::thread(threadProc, this)] does: it throws
    [std::system_error], or it creates a context that will run [w].
    [polled] says whether the polling loop of [start] reads [m_running]
    while it is true; it does not when [run()] has already returned by
    then. *)
Inductive spawn_result :=
| system_error
| spawned (w : work) (polled : bool).

Definition returns (w : work) : bool :=
  match w_result w with Some _ => true | None => false end.

Definition start (e : spawn_result) : M bool :=
  MutexAutoLock (
    running <- get m_running ;;
    if running then ret false
    else
      modify (set_request_stop false) ;;
      try_lock_start_finished ;;
      match e with
      | system_error => ret false
      | spawned w polled =>
          modify (set_thread_obj (Some (Executing w false))) ;;
          unlock_start_finished ;;
          threadProc_enter ;;
          (if polled || negb (returns w) then ret tt else blocks) ;;
          modify (set_joinable true) ;;
          ret true
      end).

(** ** stop *)

Definition stop : M bool :=
  modify (set_request_stop true) ;;
  ret true.

(** ** wait *)

(** [m_thread_obj->join()]: returns once the context has ended.  A context
    still inside [run()] ends by a pending cancellation it honours, or by
    [run()] returning, in which case the trampoline's tail runs first. *)
Definition join : M unit :=
  fun s =>
    match m_thread_obj s with
    | None => Undefined
    | Some Ended => Ret tt s
    | Some (Executing w c) =>
        if c && w_cancellable w
        then Ret tt (set_thread_obj (Some Ended) s)
        else match w_result w with
             | Some v =>
                 (threadProc_leave v ;;
                  modify (set_thread_obj (Some Ended))) s
             | None => Blocks
             end
    end.

Definition wait : M bool :=
  MutexAutoLock (
    joinable <- get m_joinable ;;
    if negb joinable then ret false
    else
      join ;;
      (* delete m_thread_obj; m_thread_obj = NULL; *)
      modify (set_thread_obj None) ;;
      running <- get m_running ;;
      assert (Bool.eqb running false) ;;
      modify (set_joinable false) ;;
      ret true).

(** ** kill *)

(** The three compile-time branches of [kill].  [SIGKILL] cannot be
    caught: [confined] says whether it ends only the context it is sent
    to, as the Android branch means it to, or the whole process, after
    which no call returns. *)
Inductive platform :=
| Win32
| Android (confined : bool)
| Posix.

(** [getThreadHandle()], declared in threading/thread.h as
    [m_thread_obj->native_handle()]: the context behind the handle. *)
Definition getThreadHandle : M std_thread :=
  fun s =>
    match m_thread_obj s with
    | Some t => Ret t s
    | None => Undefined
    end.

(** [TerminateThread(h, 0); CloseHandle(h)]: the context ends at once; the
    [std::thread] object stays where it is. *)
Definition TerminateThread : M unit :=
  _ <- getThreadHandle ;;
  modify (set_thread_obj (Some Ended)).

(** [pthread_kill(getThreadHandle(), SIGKILL)]: the context ends at
    once, and with it the process unless the signal is [confined]. *)
Definition pthread_kill (confined : bool) : M unit :=
  _ <- getThreadHandle ;;
  if confined then modify (set_thread_obj (Some Ended)) else blocks.

(** [pthread_cancel(getThreadHandle())]: a request, acted upon when the
    context reaches a cancellation point. *)
Definition pthread_cancel : M unit :=
  t <- getThreadHandle ;;
  match t with
  | Executing w _ => modify (set_thread_obj (Some (Executing w true)))
  | Ended => ret tt
  end.

Definition kill (p : platform) : M bool :=
  running <- get m_running ;;
  if negb running then
    wait ;;
    ret false
  else
    modify (set_running false) ;;
    match p with
    | Win32 => TerminateThread
    | Android confined => pthread_kill confined ;; _ <- wait ;; ret tt
    | Posix => pthread_cancel ;; _ <- wait ;; ret tt
    end ;;
    modify (set_retval NULL) ;;
    modify (set_joinable false) ;;
    modify (set_request_stop false) ;;
    ret true.

(** ** getReturnValue *)

(** [getReturnValue(void **ret)]: the second component of the result is
    the content of the slot [*ret] after the call, [slot] being its content
    before. *)
Definition getReturnValue (slot : ptr) : M (bool * ptr) :=
  running <- get m_running ;;
  if running then ret (false, slot)
  else
    v <- get m_retval ;;
    ret (true, v).

(** ** The destructor *)

Definition destroy (p : platform) : M unit :=
  kill p ;;
  try_lock_start_finished ;;
  unlock_start_finished.

(** ** Platform services *)

(** [getNumberOfProcessors()] hands on what
    [std::thread::hardware_concurrency()] reports, an [unsigned int]. *)
Definition getNumberOfProcessors (hardware_concurrency : N) : N :=
  hardware_concurrency.

(** C [int] arithmetic: a result outside the type has no defined
    behaviour; division truncates towards zero. *)
Definition INT_MIN : Z := - 2 ^ 31.
Definition INT_MAX : Z := 2 ^ 31 - 1.

Definition in_int (z : Z) : bool := (INT_MIN <=? z) && (z <=? INT_MAX).

Definition int_result (z : Z) : option Z :=
  if in_int z then Some z else None.

Definition int_add (a b : Z) : option Z := int_result (a + b).
Definition int_sub (a b : Z) : option Z := int_result (a - b).
Definition int_mul (a b : Z) : option Z := int_result (a * b).
Definition int_div (a b : Z) : option Z :=
  if b =? 0 then None else int_result (Z.quot a b).

Definition opt_bind {A B} (o : option A) (k : A -> option B) : option B :=
  match o with Some a => k a | None => None end.

(** The scheduling interface of the operating system, as [setPriority]
    uses it.  [pthread_getschedparam] gives its return code and the policy
    it stores; [pthread_setschedparam] takes the policy and the
    [sched_priority] and gives its return code. *)
Record scheduler := mkScheduler {
  pthread_getschedparam : std_thread -> Z * Z;
  sched_get_priority_min : Z -> Z;
  sched_get_priority_max : Z -> Z;
  pthread_setschedparam : std_thread -> Z -> Z -> Z;
  SetThreadPriority : std_thread -> Z -> bool
}.

Section Priority.

(** The highest abstract level and the choice of the Windows branch are
    macros of threading/thread.h, which is not among the sources. *)
Variable THREAD_PRIORITY_HIGHEST : Z.
Variable USE_WIN_THREADS : bool.

(** [min + prio * (max - min) / THREAD_PRIORITY_HIGHEST] as C evaluates
    it: the product first, then the quotient, then the sum. *)
Definition native_priority (min max prio : Z) : option Z :=
  opt_bind (int_sub max min) (fun range =>
  opt_bind (int_mul prio range) (fun scaled =>
  opt_bind (int_div scaled THREAD_PRIORITY_HIGHEST) (fun offset =>
  int_add min offset))).

(** Whether that expression has defined behaviour: no operation leaves
    [int] and the divisor is not zero. *)
Definition priority_defined (min max prio : Z) : bool :=
  negb (THREAD_PRIORITY_HIGHEST =? 0) &&
  in_int (max - min) &&
  in_int (prio * (max - min)) &&
  in_int (Z.quot (prio * (max - min)) THREAD_PRIORITY_HIGHEST) &&
  in_int (min + Z.quot (prio * (max - min)) THREAD_PRIORITY_HIGHEST).

Definition setPriority (os : scheduler) (prio : Z) : M bool :=
  if USE_WIN_THREADS then
    h <- getThreadHandle ;;
    ret (SetThreadPriority os h prio)
  else
    h <- getThreadHandle ;;
    let '(rc, policy) := pthread_getschedparam os h in
    if negb (rc =? 0) then ret false
    else
      let min := sched_get_priority_min os policy in
      let max := sched_get_priority_max os policy in
      match native_priority min max prio with
      | None => undefined
      | Some sched_priority =>
          h' <- getThreadHandle ;;
          ret (pthread_setschedparam os h' policy sched_priority =? 0)
      end.

End Priority.

(** ** Histories of one instance *)

(** What can happen to an instance: a call of its owner, or the work
    function returning in between. *)
Inductive event :=
| call_start (e : spawn_result)
| call_stop
| call_wait
| call_kill
| call_getReturnValue (slot : ptr)
| work_returns.

Definition after {A} (o : outcome A) : option state :=
  match o with
  | Ret _ s => Some s
  | _ => None
  end.

Definition step (p : platform) (ev : event) (s : state) : option state :=
  match ev with
  | call_start e => after (start e s)
  | call_stop => after (stop s)
  | call_wait => after (wait s)
  | call_kill => after (kill p s)
  | call_getReturnValue slot => after (getReturnValue slot s)
  | work_returns => run_returns s
  end.

Fixpoint exec (p : platform) (evs : list event) (s : state) : option state :=
  match evs with
  | [] => Some s
  | ev :: evs' =>
      match step p ev s with
      | Some s' => exec p evs' s'
      | None => None
      end
  end.

(** The states an owner can bring a constructed instance to. *)
Definition reachable (p : platform) (s : state) : Prop :=
  exists name evs, exec p evs (Thread name) = Some s.

(** The shape of the states between two calls: the instance lock is free;
    a running instance is joinable; a joinable instance has a thread
    object, whose context is inside [run()] exactly while [m_running]. *)
Definition wf (s : state) : bool :=
  negb (m_mutex s) &&
  implb (m_running s) (m_joinable s) &&
  match m_thread_obj s with
  | Some (Executing _ c) => m_joinable s && m_running s && negb c
  | Some Ended => negb (m_running s)
  | None => negb (m_joinable s)
  end.

(** The value with which a run completes during [ev], if one does: the
    work function returns between calls, or while [wait] is joining. *)
Definition completes (ev : event) (s : state) : option ptr :=
  match ev with
  | work_returns =>
      match m_thread_obj s with
      | Some (Executing w false) => w_result w
      | _ => None
      end
  | call_wait =>
      if m_joinable s then
        match m_thread_obj s with
        | Some (Executing w c) =>
            if c && w_cancellable w then None else w_result w
        | _ => None
        end
      else None
  | _ => None
  end.

(** The value of the last run that completed along a history with no call
    of [kill] since; [last] is that value before the history. *)
Fixpoint last_result (p : platform) (evs : list event) (s : state)
    (last : option ptr) : option ptr :=
  match evs with
  | [] => last
  | ev :: evs' =>
      match step p ev s with
      | None => None
      | Some s' =>
          last_result p evs' s'
            match ev with
            | call_kill => None
            | _ => match completes ev s with
                   | Some v => Some v
                   | None => last
                   end
            end
      end
  end.

(** Whether a [join] on the context returns. *)
Definition terminates (t : std_thread) : bool :=
  match t with
  | Executing w c => (c && w_cancellable w) || returns w
  | Ended => true
  end.

(** The members [kill] clears on its running branch. *)
Definition cleared (s : state) : state :=
  set_request_stop false
    (set_joinable false (set_retval NULL (set_running false s))).

(** A result with [m_request_stop] masked out of its state. *)
Definition masking_request_stop {A} (o : outcome A) : outcome A :=
  match o with
  | Ret a s => Ret a (set_request_stop false s)
  | Blocks => Blocks
  | Aborts => Aborts
  | Undefined => Undefined
  end.

(** ** Sample instances *)

Definition sentinel : ptr := 4096.

(** A work function that returns [sentinel] and passes cancellation
    points, and one that spins without ever passing one. *)
Definition returning_work : work := mkWork (Some sentinel) true.
Definition spinning_work : work := mkWork None false.
Definition sleeping_work : work := mkWork None true.

(** ["worker"] after a successful [start] of [w]. *)
Definition started (w : work) : state :=
  {| m_name := "worker";
     m_retval := NULL;
     m_joinable := true;
     m_request_stop := false;
     m_running := true;
     m_mutex := false;
     m_start_finished_mutex := true;
     m_thread_obj := Some (Executing w false) |}.

(** ["worker"] once its work function has returned, not yet waited on. *)
Definition finished : state :=
  {| m_name := "worker";
     m_retval := sentinel;
     m_joinable := true;
     m_request_stop := false;
     m_running := false;
     m_mutex := false;
     m_start_finished_mutex := true;
     m_thread_obj := Some Ended |}.

(** ["worker"] after [stop] on the fresh instance. *)
Definition stop_requested : state :=
  set_request_stop true (Thread "worker").

(** A scheduler with the priority range 1..99, whose calls succeed. *)
Definition fifo_scheduler : scheduler :=
  {| pthread_getschedparam := fun _ => (0, 1);
     sched_get_priority_min := fun _ => 1;
     sched_get_priority_max := fun _ => 99;
     pthread_setschedparam := fun _ _ _ => 0;
     SetThreadPriority := fun _ _ => true |}.

(** ** Calls in sequence *)




(** A result that is neither a failed assertion nor undefined. *)
Definition harmless {A} (o : outcome A) : bool :=
  match o with
  | Ret _ _ => true
  | Blocks => true
  | Aborts => false
  | Undefined => false
  end.

(** ** bindToProcessor *)

(** The macros the branches of [bindToProcessor] test.  An identifier
    that is not defined counts as 0 in [#if], which is what
    [FreeBSD_version] holds then. *)
Record build := mkBuild {
  ANDROID : bool;
  WIN_THREADS : bool;
  FreeBSD_version : Z;
  linux : bool;
  sun : bool;
  AIX : bool;
  hpux : bool;
  APPLE : bool
}.

(** The affinity interfaces of the operating systems, each giving its
    return code.  [SetThreadAffinityMask] gives the previous mask, 0 on
    failure.  The kernel thread id kept under [_AIX] is left to
    [bindprocessor]. *)
Record affinity_os := mkAffinity {
  cpu_set_t : Type;
  CPU_ZERO : cpu_set_t;
  CPU_SET : Z -> cpu_set_t -> cpu_set_t;
  SetThreadAffinityMask : std_thread -> Z -> Z;
  pthread_setaffinity_np : std_thread -> cpu_set_t -> Z;
  processor_bind : Z -> Z;
  bindprocessor : Z -> Z;
  pthread_processor_bind_np : Z -> std_thread -> Z;
  thread_policy_set : std_thread -> Z -> Z
}.

(** [a << n] on [int]: defined for [a] not negative, a count below the
    width and a product that fits the unsigned type, whose value is then
    converted to [int]. *)
Definition int_shl (a n : Z) : option Z :=
  if (0 <=? a) && (0 <=? n) && (n <? 32) && (a * 2 ^ n <? 2 ^ 32) then
    let u := a * 2 ^ n in
    Some (if u <=? INT_MAX then u else u - 2 ^ 32)
  else None.

(** [1 << proc_number], the mask of the Windows branch. *)
Definition affinity_mask (proc_number : Z) : option Z := int_shl 1 proc_number.

(** [proc_number + 1] on [unsigned int], stored in the [int] field
    [affinity_tag]. *)
Definition affinity_tag (proc_number : Z) : Z :=
  let u := (proc_number + 1) mod 2 ^ 32 in
  if u <=? INT_MAX then u else u - 2 ^ 32.

Definition KERN_SUCCESS : Z := 0.

Definition bindToProcessor (b : build) (os : affinity_os) (proc_number : Z)
    : M bool :=
  if ANDROID b then
    ret false
  else if WIN_THREADS b then
    h <- getThreadHandle ;;
    match affinity_mask proc_number with
    | None => undefined
    | Some mask => ret (negb (SetThreadAffinityMask os h mask =? 0))
    end
  else if (702106 <=? FreeBSD_version b) || linux b then
    let cpuset := CPU_SET os proc_number (CPU_ZERO os) in
    h <- getThreadHandle ;;
    ret (pthread_setaffinity_np os h cpuset =? 0)
  else if sun b then
    ret (processor_bind os proc_number =? 0)
  else if AIX b then
    ret (bindprocessor os proc_number =? 0)
  else if hpux b then
    h <- getThreadHandle ;;
    ret (pthread_processor_bind_np os proc_number h =? 0)
  else if APPLE b then
    h <- getThreadHandle ;;
    ret (thread_policy_set os h (affinity_tag proc_number) =? KERN_SUCCESS)
  else
    ret false.

(** An Android build, which is a Linux build as well, and a build for
    Windows threads. *)
Definition android_build : build :=
  mkBuild true false 0 true false false false false.
Definition windows_build : build :=
  mkBuild false true 0 false false false false false.

(** An affinity interface whose calls all succeed. *)
Definition obliging_os : affinity_os :=
  {| cpu_set_t := list Z;
     CPU_ZERO := [];
     CPU_SET := fun n set => n :: set;
     SetThreadAffinityMask := fun _ _ => 1;
     pthread_setaffinity_np := fun _ _ => 0;
     processor_bind := fun _ => 0;
     bindprocessor := fun _ => 0;
     pthread_processor_bind_np := fun _ _ => 0;
     thread_policy_set := fun _ _ => 0 |}.

End Thread.

Import Thread.
Local Open Scope thread_scope.

(** * Properties *)

Ltac unfold_calls :=
  unfold start, stop, wait, kill, getReturnValue, destroy,
    TerminateThread, pthread_kill, pthread_cancel, getThreadHandle, join,
    threadProc_enter, threadProc_leave, lock_start_finished,
    try_lock_start_finished, unlock_start_finished, MutexAutoLock, assert,
    bind, ret, get, modify, blocks, undefined.

Ltac open_state s :=
  destruct s as [name retval joinable request_stop running mutex sfm obj];
  cbn in *; subst.

Ltac open_thread t :=
  destruct t as [[[v|] cancellable] pending|].

(** ** Construction *)

Section Fresh.

Variable name : string.

(** C10: a freshly constructed instance, whatever its name, has running,
    joinable and stopRequested false and a null returnValue; on it wait()
    returns false, kill() returns false, and getReturnValue succeeds and
    yields null although no run has completed. *)
Theorem fresh_instance :
  m_running (Thread name) = false /\
  m_joinable (Thread name) = false /\
  m_request_stop (Thread name) = false /\
  m_retval (Thread name) = NULL /\
  wait (Thread name) = Ret false (Thread name) /\
  (forall p, kill p (Thread name) = Ret false (Thread name)) /\
  (forall slot,
      getReturnValue slot (Thread name) = Ret (true, NULL) (Thread name)).
Proof.
  repeat split; intros; reflexivity.
Qed.

Lemma fresh_wf : wf (Thread name) = true.
Proof. reflexivity. Qed.

End Fresh.

(** ** start *)

(** C6: start() on a running instance returns false and leaves every
    member as it was (the instance lock being free at the call). *)
Theorem start_while_running :
  forall (e : spawn_result) (s : state),
    m_mutex s = false ->
    m_running s = true ->
    start e s = Ret false s.
Proof.
  intros e s Hlock Hrun. open_state s. reflexivity.
Qed.

Lemma start_while_running_witness :
  start (spawned returning_work true) (started spinning_work)
  = Ret false (started spinning_work).
Proof.
  apply (start_while_running (spawned returning_work true)
           (started spinning_work)); reflexivity.
Defined.

(** C1, as the claim has it, fails: after stop() on a fresh instance a
    start() whose spawn throws returns false with stopRequested cleared
    and the startup mutex held, neither of which was so before. *)
Lemma start_spawn_failure_mutates :
  m_request_stop stop_requested = true /\
  m_start_finished_mutex stop_requested = false /\
  start system_error stop_requested <> Ret false stop_requested /\
  exists s',
    start system_error stop_requested = Ret false s' /\
    m_request_stop s' = false /\
    m_start_finished_mutex s' = true.
Proof.
  repeat split; try discriminate.
  eexists. repeat split.
Qed.

(** C1, amended: when the spawn throws, start() returns false; running,
    joinable, returnValue, the native handle, the name and the instance
    lock are as before the call, stopRequested is false and the startup
    mutex is held. *)
Theorem start_spawn_failure :
  forall s : state,
    m_mutex s = false ->
    m_running s = false ->
    exists s',
      start system_error s = Ret false s' /\
      s' = set_start_finished_mutex true (set_request_stop false s) /\
      m_running s' = m_running s /\
      m_joinable s' = m_joinable s /\
      m_retval s' = m_retval s /\
      m_thread_obj s' = m_thread_obj s /\
      m_name s' = m_name s /\
      m_mutex s' = m_mutex s /\
      m_request_stop s' = false /\
      m_start_finished_mutex s' = true.
Proof.
  intros s Hlock Hrun. open_state s.
  eexists. split; [reflexivity|]. repeat split.
Qed.

Lemma start_spawn_failure_witness :
  exists s',
    start system_error stop_requested = Ret false s' /\
    s' = set_start_finished_mutex true
           (set_request_stop false stop_requested) /\
    m_running s' = m_running stop_requested /\
    m_joinable s' = m_joinable stop_requested /\
    m_retval s' = m_retval stop_requested /\
    m_thread_obj s' = m_thread_obj stop_requested /\
    m_name s' = m_name stop_requested /\
    m_mutex s' = m_mutex stop_requested /\
    m_request_stop s' = false /\
    m_start_finished_mutex s' = true.
Proof.
  apply (start_spawn_failure stop_requested); reflexivity.
Defined.

(** ** wait *)

(** C4: wait() on an instance that is not joinable returns false at once
    and changes no member.  On a joinable instance it does not return
    before the native context has ended; once it has, the handle is null,
    running is false (the assertion after the join holds), joinable is
    false, and wait() returns true. *)
Theorem wait_joins :
  forall s : state,
    m_mutex s = false ->
    (m_joinable s = false -> wait s = Ret false s) /\
    (m_joinable s = true ->
     wf s = true ->
     exists t,
       m_thread_obj s = Some t /\
       (terminates t = false -> wait s = Blocks) /\
       (terminates t = true ->
        exists s',
          wait s = Ret true s' /\
          m_thread_obj s' = None /\
          m_running s' = false /\
          m_joinable s' = false /\
          m_request_stop s' = m_request_stop s /\
          m_start_finished_mutex s' = m_start_finished_mutex s /\
          m_name s' = m_name s /\
          m_mutex s' = false /\
          m_retval s' =
            match t with
            | Executing w _ =>
                match w_result w with
                | Some v => v
                | None => m_retval s
                end
            | Ended => m_retval s
            end)).
Proof.
  intros s Hlock. split.
  - intros Hj. open_state s. reflexivity.
  - intros Hj Hwf. open_state s.
    destruct obj as [t|]; [|destruct running; discriminate].
    exists t. split; [reflexivity|].
    open_thread t; destruct running; cbn in *; try discriminate.
    + (* inside a run() that returns *)
      destruct pending; [discriminate|].
      split; [discriminate|]. intros _.
      eexists. split; [reflexivity|]. repeat split.
    + (* inside a run() that never returns *)
      destruct pending; [discriminate|].
      split; [reflexivity|]. rewrite andb_false_l. discriminate.
    + (* the context has ended *)
      split; [discriminate|]. intros _.
      eexists. split; [reflexivity|]. repeat split.
Qed.

Lemma wait_joins_witness :
  wait (Thread "worker") = Ret false (Thread "worker") /\
  wait (started spinning_work) = Blocks /\
  exists s',
    wait (started returning_work) = Ret true s' /\
    m_thread_obj s' = None /\ m_running s' = false /\
    m_joinable s' = false /\ m_retval s' = sentinel.
Proof.
  split; [|split].
  - apply (wait_joins (Thread "worker")); reflexivity.
  - destruct (wait_joins (started spinning_work) eq_refl) as [_ H].
    destruct (H eq_refl eq_refl) as [t [Ht [Hb _]]].
    injection Ht as <-. apply Hb. reflexivity.
  - destruct (wait_joins (started returning_work) eq_refl) as [_ H].
    destruct (H eq_refl eq_refl) as [t [Ht [_ Hr]]].
    injection Ht as <-.
    destruct (Hr eq_refl) as [s' [Hw [Ho [Hrun [Hj [_ [_ [_ [_ Hv]]]]]]]]].
    exists s'. repeat split; assumption.
Defined.

(** ** The states between calls *)

Section Histories.

Variable p : platform.

(** Every call that returns, and the work function returning, keep [wf]. *)
Lemma step_wf :
  forall (ev : event) (s s' : state),
    wf s = true -> step p ev s = Some s' -> wf s' = true.
Proof.
  intros ev s s' Hwf Hstep. open_state s.
  destruct mutex; [discriminate|].
  destruct ev as [[|w polled]| | | |slot|]; cbn in Hstep.
  - (* start, the spawn throws *)
    destruct running; injection Hstep as <-; exact Hwf.
  - (* start, a context is created *)
    destruct running; [injection Hstep as <-; exact Hwf|].
    unfold_calls; cbn in Hstep.
    destruct (polled || negb (returns w)); [|discriminate].
    injection Hstep as <-. reflexivity.
  - (* stop *)
    injection Hstep as <-. exact Hwf.
  - (* wait *)
    destruct joinable; [|injection Hstep as <-; exact Hwf].
    destruct obj as [t|]; [|discriminate].
    open_thread t; destruct running; try destruct pending;
      cbn in *; try discriminate; injection Hstep as <-; reflexivity.
  - (* kill *)
    destruct running, joinable; try discriminate;
      destruct obj as [t|]; try discriminate;
      try open_thread t; try destruct pending; try destruct cancellable;
      destruct p as [|[|]|]; cbn in *; try discriminate;
      injection Hstep as <-; reflexivity.
  - (* getReturnValue *)
    destruct running; injection Hstep as <-; exact Hwf.
  - (* the work function returns *)
    unfold run_returns in Hstep; cbn in Hstep.
    destruct obj as [t|]; [|discriminate].
    open_thread t; try destruct pending; try discriminate.
    cbn in Hstep. injection Hstep as <-.
    destruct joinable, running; cbn in *; try discriminate; reflexivity.
Qed.

Lemma exec_wf :
  forall (evs : list event) (s s' : state),
    wf s = true -> exec p evs s = Some s' -> wf s' = true.
Proof.
  induction evs as [|ev evs IH]; intros s s' Hwf Hexec; cbn in Hexec.
  - injection Hexec as <-. exact Hwf.
  - destruct (step p ev s) as [s1|] eqn:Hstep; [|discriminate].
    apply (IH s1 s'); [|exact Hexec].
    exact (step_wf ev s s1 Hwf Hstep).
Qed.

(** Every state an owner can reach is well formed. *)
Lemma reachable_wf : forall s : state, reachable p s -> wf s = true.
Proof.
  intros s [name [evs Hexec]].
  exact (exec_wf evs (Thread name) s (fresh_wf name) Hexec).
Qed.

Lemma started_reachable : forall w : work, reachable p (started w).
Proof.
  intros w. exists "worker"%string, [call_start (spawned w true)].
  reflexivity.
Qed.

Lemma finished_reachable : reachable p finished.
Proof.
  exists "worker"%string, [call_start (spawned returning_work true); work_returns].
  reflexivity.
Qed.

Lemma stop_requested_reachable : reachable p stop_requested.
Proof.
  exists "worker"%string, [call_stop]. reflexivity.
Qed.

(** Apart from [kill], an event changes [m_retval] only by completing a
    run, and then to the value the run returned. *)
Lemma step_retval :
  forall (ev : event) (s s' : state),
    ev <> call_kill ->
    step p ev s = Some s' ->
    m_retval s' =
      match completes ev s with
      | Some v => v
      | None => m_retval s
      end.
Proof.
  intros ev s s' Hev Hstep. open_state s.
  destruct ev as [[|w polled]| | | |slot|]; cbn in Hstep;
    try congruence.
  - destruct mutex; [discriminate|].
    destruct running; injection Hstep as <-; reflexivity.
  - destruct mutex; [discriminate|].
    destruct running; [injection Hstep as <-; reflexivity|].
    unfold_calls; cbn in Hstep.
    destruct (polled || negb (returns w)); [|discriminate].
    injection Hstep as <-. reflexivity.
  - injection Hstep as <-. reflexivity.
  - destruct mutex; [discriminate|].
    destruct joinable; [|injection Hstep as <-; reflexivity].
    destruct obj as [t|]; [|discriminate].
    open_thread t; try destruct pending; try destruct cancellable;
      destruct running; cbn in *; try discriminate;
      injection Hstep as <-; reflexivity.
  - destruct running; injection Hstep as <-; reflexivity.
  - unfold run_returns in Hstep; cbn in Hstep.
    destruct obj as [t|]; [|discriminate].
    open_thread t; try destruct pending; try discriminate.
    cbn in Hstep. injection Hstep as <-. reflexivity.
Qed.

(** Along a history, [m_retval] holds the value [last_result] tracks. *)
Lemma last_result_retval :
  forall (evs : list event) (s s' : state) (last : option ptr) (V : ptr),
    (forall v, last = Some v -> m_retval s = v) ->
    exec p evs s = Some s' ->
    last_result p evs s last = Some V ->
    m_retval s' = V.
Proof.
  induction evs as [|ev evs IH]; intros s s' last V Hlast Hexec Hres;
    cbn in Hexec, Hres.
  - injection Hexec as <-. apply Hlast. exact Hres.
  - destruct (step p ev s) as [s1|] eqn:Hstep; [|discriminate].
    refine (IH s1 s' _ V _ Hexec Hres).
    intros v Hv.
    assert (Hkill : {ev = call_kill} + {ev <> call_kill})
      by (destruct ev; (left; reflexivity) || (right; discriminate)).
    destruct Hkill as [->|Hne]; [discriminate|].
    rewrite (step_retval ev s s1 Hne Hstep).
    destruct ev; try congruence;
      destruct (completes _ s); try congruence; auto.
Qed.

End Histories.

(** ** kill *)

(** C7: kill() on an instance that is not running (never started, or
    finished and not yet waited on) does what wait() does and returns
    false; afterwards the instance is neither joinable nor running, and a
    handle that was joinable has been reaped. *)
Theorem kill_while_not_running :
  forall (p : platform) (s : state),
    wf s = true ->
    m_running s = false ->
    exists s',
      wait s = Ret (m_joinable s) s' /\
      kill p s = Ret false s' /\
      m_joinable s' = false /\
      m_running s' = false /\
      m_thread_obj s' = (if m_joinable s then None else m_thread_obj s) /\
      m_retval s' = m_retval s /\
      m_request_stop s' = m_request_stop s.
Proof.
  intros p s Hwf Hrun. open_state s.
  destruct mutex; [discriminate|].
  destruct joinable.
  - destruct obj as [[w c|]|]; try discriminate.
    eexists. split; [reflexivity|]. repeat split.
  - eexists. split; [reflexivity|]. repeat split.
Qed.

Lemma kill_while_not_running_witness :
  (exists s',
      wait (Thread "worker") = Ret false s' /\
      kill Posix (Thread "worker") = Ret false s' /\
      m_joinable s' = false /\ m_running s' = false) /\
  (exists s',
      wait finished = Ret true s' /\
      kill Win32 finished = Ret false s' /\
      m_joinable s' = false /\ m_running s' = false /\
      m_thread_obj s' = None).
Proof.
  split.
  - destruct (kill_while_not_running Posix (Thread "worker") eq_refl eq_refl)
      as [s' [Hw [Hk [Hj [Hr _]]]]].
    exists s'. repeat split; assumption.
  - destruct (kill_while_not_running Win32 finished eq_refl eq_refl)
      as [s' [Hw [Hk [Hj [Hr [Ho _]]]]]].
    exists s'. repeat split; assumption.
Defined.

(** C2, as the claim has it, fails on the Windows branch: kill() on a
    running instance returns true with the four members cleared, but the
    thread object is neither joined nor released, and the handle still
    points to it. *)
Lemma kill_win32_keeps_thread_object :
  m_running (started spinning_work) = true /\
  exists s',
    kill Win32 (started spinning_work) = Ret true s' /\
    m_thread_obj s' = Some Ended /\
    m_thread_obj s' <> None.
Proof.
  split; [reflexivity|].
  eexists. split; [reflexivity|]. split; [reflexivity|discriminate].
Qed.

(** On the POSIX branch, a work function that neither returns nor passes
    a cancellation point keeps kill() in its join for ever. *)
Lemma kill_posix_spinning_blocks :
  kill Posix (started spinning_work) = Blocks.
Proof. reflexivity. Qed.

(** C2, amended: on a running instance in a state between calls, kill()
    on the Windows branch returns true with running, joinable and
    stopRequested false and returnValue null, the thread object staying
    behind the handle, unjoined; on the other branches, when it returns,
    it returns true with the same members cleared and the context joined,
    the handle null.  On the Android branch it returns if the signal ends
    the context alone; on the POSIX branch it returns if the context
    honours the cancellation or its work function returns, and not
    otherwise. *)
Theorem kill_while_running :
  forall s : state,
    wf s = true ->
    m_running s = true ->
    exists w,
      m_thread_obj s = Some (Executing w false) /\
      (m_running (cleared s) = false /\
       m_joinable (cleared s) = false /\
       m_retval (cleared s) = NULL /\
       m_request_stop (cleared s) = false) /\
      kill Win32 s = Ret true (set_thread_obj (Some Ended) (cleared s)) /\
      kill (Android true) s = Ret true (set_thread_obj None (cleared s)) /\
      kill (Android false) s = Blocks /\
      (w_cancellable w || returns w = true ->
       kill Posix s = Ret true (set_thread_obj None (cleared s))) /\
      (w_cancellable w || returns w = false ->
       kill Posix s = Blocks).
Proof.
  intros s Hwf Hrun. open_state s.
  destruct mutex; [discriminate|].
  destruct joinable; [|discriminate].
  destruct obj as [[w c|]|]; try discriminate.
  destruct c; [discriminate|].
  exists w. split; [reflexivity|]. split; [repeat split|].
  split; [reflexivity|]. split; [reflexivity|]. split; [reflexivity|].
  destruct w as [[v|] cancellable]; destruct cancellable; cbn;
    split; intros H; try discriminate H; reflexivity.
Qed.

Lemma kill_while_running_witness :
  kill Win32 (started sleeping_work)
  = Ret true (set_thread_obj (Some Ended) (cleared (started sleeping_work))) /\
  kill (Android true) (started sleeping_work)
  = Ret true (set_thread_obj None (cleared (started sleeping_work))) /\
  kill Posix (started sleeping_work)
  = Ret true (set_thread_obj None (cleared (started sleeping_work))).
Proof.
  destruct (kill_while_running (started sleeping_work) eq_refl eq_refl)
    as [w [Hw [_ [Hwin [Handroid [_ [Hposix _]]]]]]].
  injection Hw as <-.
  split; [exact Hwin|]. split; [exact Handroid|].
  apply Hposix. reflexivity.
Defined.

(** Whatever [start] left behind, the destructor leaves the startup
    mutex free when its [kill] returns. *)
Lemma destroy_unlocks :
  forall (p : platform) (s s' : state),
    destroy p s = Ret tt s' -> m_start_finished_mutex s' = false.
Proof.
  intros p s s' H. unfold destroy, bind in H.
  destruct (kill p s) as [b s1| | |]; try discriminate.
  injection H as <-. reflexivity.
Qed.

(** ** stop *)

(** C9: stop() returns true in every state, a fresh instance included,
    without waiting for anything; it sets stopRequested and changes no
    other member.  No operation of the core acts on stopRequested: the
    result of start, wait, kill and getReturnValue, and of the work
    function returning, is the same whatever the flag holds, up to the
    flag itself. *)
Theorem stop_is_advisory :
  (forall s : state, stop s = Ret true (set_request_stop true s)) /\
  (forall s : state,
      m_request_stop (set_request_stop true s) = true /\
      m_running (set_request_stop true s) = m_running s /\
      m_joinable (set_request_stop true s) = m_joinable s /\
      m_retval (set_request_stop true s) = m_retval s /\
      m_thread_obj (set_request_stop true s) = m_thread_obj s /\
      m_name (set_request_stop true s) = m_name s /\
      m_mutex (set_request_stop true s) = m_mutex s /\
      m_start_finished_mutex (set_request_stop true s)
      = m_start_finished_mutex s) /\
  (forall name : string,
      stop (Thread name) = Ret true (set_request_stop true (Thread name))) /\
  (forall (b : bool) (s : state),
      (forall e,
          masking_request_stop (start e (set_request_stop b s))
          = masking_request_stop (start e s)) /\
      masking_request_stop (wait (set_request_stop b s))
      = masking_request_stop (wait s) /\
      (forall p,
          masking_request_stop (kill p (set_request_stop b s))
          = masking_request_stop (kill p s)) /\
      (forall slot,
          masking_request_stop (getReturnValue slot (set_request_stop b s))
          = masking_request_stop (getReturnValue slot s)) /\
      option_map (set_request_stop false) (run_returns (set_request_stop b s))
      = option_map (set_request_stop false) (run_returns s)).
Proof.
  split; [reflexivity|]. split; [intros s; repeat split|].
  split; [reflexivity|].
  intros b s. open_state s. split; [|split; [|split; [|split]]].
  - intros [|w polled]; destruct mutex, running; reflexivity.
  - destruct mutex, joinable; try reflexivity.
    destruct obj as [t|]; [|reflexivity].
    open_thread t; try destruct pending; try destruct cancellable;
      destruct running; reflexivity.
  - intros p. destruct running.
    + destruct obj as [t|]; [|destruct p as [|[|]|]; reflexivity].
      destruct p as [|[|]|], mutex, joinable; try reflexivity;
        open_thread t; try destruct pending; try destruct cancellable;
        reflexivity.
    + destruct mutex, joinable; try reflexivity.
      destruct obj as [t|]; [|reflexivity].
      open_thread t; try destruct pending; try destruct cancellable;
        reflexivity.
  - intros slot. destruct running; reflexivity.
  - unfold run_returns; cbn.
    destruct obj as [t|]; [|reflexivity].
    open_thread t; try destruct pending; reflexivity.
Qed.

(** ** getReturnValue *)

(** C5: while running is true getReturnValue returns false and leaves the
    output slot alone; when running is false at the end of a history in
    which a run completed with value V and kill was not called since,
    it writes V to the slot and returns true. *)
Theorem getReturnValue_result :
  (forall (slot : ptr) (s : state),
      m_running s = true ->
      getReturnValue slot s = Ret (false, slot) s) /\
  (forall (p : platform) (name : string) (evs : list event) (s : state)
          (V slot : ptr),
      exec p evs (Thread name) = Some s ->
      last_result p evs (Thread name) None = Some V ->
      m_running s = false ->
      getReturnValue slot s = Ret (true, V) s).
Proof.
  split.
  - intros slot s Hrun. open_state s. reflexivity.
  - intros p nm evs s V slot Hexec Hlast Hrun.
    assert (Hval : m_retval s = V).
    { apply (last_result_retval p evs (Thread nm) s None V);
        [discriminate | exact Hexec | exact Hlast]. }
    clear Hexec Hlast. open_state s. reflexivity.
Qed.

Lemma getReturnValue_result_witness :
  getReturnValue 7 (started returning_work)
  = Ret (false, 7) (started returning_work) /\
  getReturnValue 7 finished = Ret (true, sentinel) finished.
Proof.
  split.
  - apply (proj1 getReturnValue_result 7 (started returning_work)).
    reflexivity.
  - apply (proj2 getReturnValue_result Posix "worker"%string
             [call_start (spawned returning_work true); call_stop;
              work_returns; call_start system_error]
             finished sentinel 7); reflexivity.
Defined.

(** ** Platform services *)

(** C3, as the claim has it, fails: where the standard library cannot
    tell the number of processors it reports 0, and that is what
    getNumberOfProcessors() returns. *)
Lemma getNumberOfProcessors_zero :
  getNumberOfProcessors 0 = 0%N /\
  ~ (1 <= getNumberOfProcessors 0)%N.
Proof.
  split; [reflexivity|]. unfold getNumberOfProcessors. lia.
Qed.

(** C3, amended: getNumberOfProcessors() always succeeds and returns the
    count that std::thread::hardware_concurrency() reports, unchanged; it
    is at least 1 whenever that count is. *)
Theorem getNumberOfProcessors_reports :
  forall hardware_concurrency : N,
    getNumberOfProcessors hardware_concurrency = hardware_concurrency /\
    ((1 <= hardware_concurrency)%N ->
     (1 <= getNumberOfProcessors hardware_concurrency)%N).
Proof.
  intros hc. unfold getNumberOfProcessors. split; [reflexivity|].
  intros Hpos. exact Hpos.
Qed.

Lemma getNumberOfProcessors_reports_witness :
  getNumberOfProcessors 8 = 8%N /\ (1 <= getNumberOfProcessors 8)%N.
Proof.
  destruct (getNumberOfProcessors_reports 8) as [Hsame Hpos].
  split; [exact Hsame|]. apply Hpos. discriminate.
Defined.

Section PosixPriority.

Variable HIGHEST : Z.

Lemma int_result_in : forall z : Z, in_int z = true -> int_result z = Some z.
Proof.
  intros z Hz. unfold int_result. rewrite Hz. reflexivity.
Qed.

(** Where it is defined, the C expression has the value of the formula
    over the integers, the quotient truncated. *)
Lemma native_priority_defined :
  forall min max prio : Z,
    priority_defined HIGHEST min max prio = true ->
    native_priority HIGHEST min max prio
    = Some (min + Z.quot (prio * (max - min)) HIGHEST).
Proof.
  intros min max prio Hdef. unfold priority_defined in Hdef.
  repeat (apply andb_prop in Hdef; destruct Hdef as [Hdef ?]).
  unfold native_priority, int_sub, int_mul, int_div, int_add.
  rewrite (int_result_in (max - min)) by assumption. cbn [opt_bind].
  rewrite (int_result_in (prio * (max - min))) by assumption. cbn [opt_bind].
  apply negb_true_iff in Hdef. rewrite Hdef.
  rewrite (int_result_in (Z.quot (prio * (max - min)) HIGHEST)) by assumption.
  cbn [opt_bind]. apply int_result_in. assumption.
Qed.

(** For a level between the lowest and the highest and a range that is
    not empty, truncation is rounding down. *)
Lemma native_priority_rounds_down :
  forall min max prio : Z,
    0 < HIGHEST -> 0 <= prio -> min <= max ->
    min + Z.quot (prio * (max - min)) HIGHEST
    = min + (prio * (max - min)) / HIGHEST.
Proof.
  intros min max prio HH Hp Hr.
  rewrite Z.quot_div_nonneg; [reflexivity| |assumption].
  apply Z.mul_nonneg_nonneg; lia.
Qed.

End PosixPriority.

(** C8: on the POSIX branch setPriority(level) returns false when the
    scheduling parameters cannot be queried; otherwise it sets the
    native priority min + level * (max - min) / MAX_LEVEL, min and max
    being the policy's lowest and highest priority and the arithmetic
    that of C where it is defined, and returns whether setting it
    succeeded. *)
Theorem setPriority_posix :
  forall (HIGHEST : Z) (os : scheduler) (prio : Z) (s : state)
         (t : std_thread),
    m_thread_obj s = Some t ->
    let rc := fst (pthread_getschedparam os t) in
    let policy := snd (pthread_getschedparam os t) in
    let min := sched_get_priority_min os policy in
    let max := sched_get_priority_max os policy in
    let native := min + Z.quot (prio * (max - min)) HIGHEST in
    (rc <> 0 -> setPriority HIGHEST false os prio s = Ret false s) /\
    (rc = 0 ->
     priority_defined HIGHEST min max prio = true ->
     native_priority HIGHEST min max prio = Some native /\
     setPriority HIGHEST false os prio s
     = Ret (pthread_setschedparam os t policy native =? 0) s).
Proof.
  intros HIGHEST os prio s t Hobj rc policy min max native.
  unfold setPriority, getThreadHandle, bind, ret, undefined.
  rewrite Hobj. subst rc policy min max native.
  destruct (pthread_getschedparam os t) as [rc policy]. cbn [fst snd].
  split.
  - intros Hrc. apply Z.eqb_neq in Hrc. rewrite Hrc. reflexivity.
  - intros -> Hdef. cbn [Z.eqb negb].
    rewrite (native_priority_defined HIGHEST _ _ _ Hdef).
    rewrite Hobj. split; reflexivity.
Qed.

Lemma setPriority_posix_witness :
  native_priority 4 1 99 2 = Some 50 /\
  setPriority 4 false fifo_scheduler 2 (started sleeping_work)
  = Ret true (started sleeping_work).
Proof.
  exact (proj2 (setPriority_posix 4 fifo_scheduler 2 (started sleeping_work)
                  (Executing sleeping_work false) eq_refl)
               eq_refl eq_refl).
Defined.

(** * Further properties of the lifecycle *)

(** X1: start() on an instance that is not running, with the instance
    lock free and a spawn that succeeds, never returns false.  It returns
    true when its poll sees the context running, or the work function
    never returns, and then the instance is running and joinable, with
    stopRequested cleared, the handle pointing to the new context and the
    startup mutex held by it; returnValue and the name are untouched.  It
    does not return when the work function has returned before the
    poll. *)
Theorem start_on_idle :
  forall (w : work) (polled : bool) (s : state),
    m_mutex s = false ->
    m_running s = false ->
    (polled || negb (returns w) = true ->
     exists s',
       start (spawned w polled) s = Ret true s' /\
       m_running s' = true /\
       m_joinable s' = true /\
       m_request_stop s' = false /\
       m_thread_obj s' = Some (Executing w false) /\
       m_start_finished_mutex s' = true /\
       m_mutex s' = false /\
       m_retval s' = m_retval s /\
       m_name s' = m_name s /\
       wf s' = true) /\
    (polled || negb (returns w) = false ->
     start (spawned w polled) s = Blocks).
Proof.
  intros w polled s Hlock Hrun. open_state s.
  unfold_calls; cbn.
  destruct (polled || negb (returns w)); split; intros H;
    try discriminate H; [|reflexivity].
  eexists. split; [reflexivity|]. repeat split.
Qed.

Lemma start_on_idle_witness :
  (exists s',
      start (spawned spinning_work false) finished = Ret true s' /\
      m_running s' = true /\ m_joinable s' = true) /\
  start (spawned returning_work false) (Thread "worker") = Blocks.
Proof.
  split.
  - destruct (start_on_idle spinning_work false finished eq_refl eq_refl)
      as [Hok _].
    destruct (Hok eq_refl) as [s' [Hs [Hr [Hj _]]]].
    exists s'. repeat split; assumption.
  - apply (start_on_idle returning_work false (Thread "worker")
             eq_refl eq_refl).
    reflexivity.
Defined.




(** X3: once wait() has returned, with either result, the instance is
    not joinable, and a further wait() returns false and changes
    nothing. *)
Theorem wait_twice :
  forall (s s' : state) (b : bool),
    wait s = Ret b s' ->
    m_joinable s' = false /\ wait s' = Ret false s'.
Proof.
  intros s s' b Hwait. open_state s.
  destruct mutex; [discriminate|].
  destruct joinable.
  - destruct obj as [t|]; [|discriminate].
    open_thread t; try destruct pending; try destruct cancellable;
      destruct running; cbn in Hwait; try discriminate;
      injection Hwait as <- <-; split; reflexivity.
  - injection Hwait as <- <-. split; reflexivity.
Qed.

Lemma wait_twice_witness :
  exists s',
    wait finished = Ret true s' /\
    m_joinable s' = false /\ wait s' = Ret false s'.
Proof.
  eexists. split; [reflexivity|].
  apply (wait_twice finished _ true). reflexivity.
Defined.

Ltac open_fields s :=
  destruct s as [name retval joinable request_stop running mutex sfm obj];
  cbn [m_name m_retval m_joinable m_request_stop m_running m_mutex
       m_start_finished_mutex m_thread_obj] in *; subst.







Section MoreHistories.

Variable p : platform.

Lemma step_name :
  forall (ev : event) (s s' : state),
    step p ev s = Some s' -> m_name s' = m_name s.
Proof.
  intros ev s s' Hstep. open_state s.
  destruct ev as [[|w polled]| | | |slot|]; cbn in Hstep.
  - destruct mutex; [discriminate|].
    destruct running; injection Hstep as <-; reflexivity.
  - destruct mutex; [discriminate|].
    destruct running; [injection Hstep as <-; reflexivity|].
    unfold_calls; cbn in Hstep.
    destruct (polled || negb (returns w)); [|discriminate].
    injection Hstep as <-. reflexivity.
  - injection Hstep as <-. reflexivity.
  - destruct mutex; [discriminate|].
    destruct joinable; [|injection Hstep as <-; reflexivity].
    destruct obj as [t|]; [|discriminate].
    open_thread t; try destruct pending; try destruct cancellable;
      destruct running; cbn in Hstep; try discriminate;
      injection Hstep as <-; reflexivity.
  - destruct running.
    + destruct obj as [t|]; [|destruct p as [|[|]|]; discriminate].
      destruct p as [|[|]|], mutex, joinable;
        open_thread t; try destruct pending; try destruct cancellable;
        cbn in Hstep; try discriminate;
        injection Hstep as <-; reflexivity.
    + destruct mutex; [discriminate|].
      destruct joinable; [|injection Hstep as <-; reflexivity].
      destruct obj as [t|]; [|discriminate].
      open_thread t; try destruct pending; try destruct cancellable;
        cbn in Hstep; try discriminate;
        injection Hstep as <-; reflexivity.
  - destruct running; injection Hstep as <-; reflexivity.
  - unfold run_returns in Hstep; cbn in Hstep.
    destruct obj as [t|]; [|discriminate].
    open_thread t; try destruct pending; try discriminate.
    cbn in Hstep. injection Hstep as <-. reflexivity.
Qed.

(** X6: no call and no return of a work function changes the name: at
    the end of every history the instance has the name it was
    constructed with, which is the one the trampoline hands to the
    operating system and the logger. *)
Theorem name_is_kept :
  forall (evs : list event) (name : string) (s : state),
    exec p evs (Thread name) = Some s -> m_name s = name.
Proof.
  intros evs name.
  change name with (m_name (Thread name)) at 2.
  generalize (Thread name) as s0.
  induction evs as [|ev evs IH]; intros s0 s Hexec; cbn in Hexec.
  - injection Hexec as <-. reflexivity.
  - destruct (step p ev s0) as [s1|] eqn:Hstep; [|discriminate].
    rewrite (IH s1 s Hexec). exact (step_name ev s0 s1 Hstep).
Qed.

(** X7: a stop request lives until the next start() that gets past its
    running test, or the next kill() of a running instance: stop() sets
    the flag, those two clear it, and every other call that returns, and
    the work function returning, leave it as it is.  A stop() issued
    before start() is therefore lost. *)
Theorem stop_request_lifetime :
  forall (ev : event) (s s' : state),
    step p ev s = Some s' ->
    m_request_stop s' =
      match ev with
      | call_stop => true
      | call_start _ => if m_running s then m_request_stop s else false
      | call_kill => if m_running s then false else m_request_stop s
      | _ => m_request_stop s
      end.
Proof.
  intros ev s s' Hstep. open_state s.
  destruct ev as [[|w polled]| | | |slot|]; cbn in Hstep.
  - destruct mutex; [discriminate|].
    destruct running; injection Hstep as <-; reflexivity.
  - destruct mutex; [discriminate|].
    destruct running; [injection Hstep as <-; reflexivity|].
    unfold_calls; cbn in Hstep.
    destruct (polled || negb (returns w)); [|discriminate].
    injection Hstep as <-. reflexivity.
  - injection Hstep as <-. reflexivity.
  - destruct mutex; [discriminate|].
    destruct joinable; [|injection Hstep as <-; reflexivity].
    destruct obj as [t|]; [|discriminate].
    open_thread t; try destruct pending; try destruct cancellable;
      destruct running; cbn in Hstep; try discriminate;
      injection Hstep as <-; reflexivity.
  - destruct running.
    + destruct obj as [t|]; [|destruct p as [|[|]|]; discriminate].
      destruct p as [|[|]|], mutex, joinable;
        open_thread t; try destruct pending; try destruct cancellable;
        cbn in Hstep; try discriminate;
        injection Hstep as <-; reflexivity.
    + destruct mutex; [discriminate|].
      destruct joinable; [|injection Hstep as <-; reflexivity].
      destruct obj as [t|]; [|discriminate].
      open_thread t; try destruct pending; try destruct cancellable;
        cbn in Hstep; try discriminate;
        injection Hstep as <-; reflexivity.
  - destruct running; injection Hstep as <-; reflexivity.
  - unfold run_returns in Hstep; cbn in Hstep.
    destruct obj as [t|]; [|discriminate].
    open_thread t; try destruct pending; try discriminate.
    cbn in Hstep. injection Hstep as <-. reflexivity.
Qed.

(** X8: in every state an owner can reach from the constructor, the
    instance lock is free; a running instance is joinable; a joinable
    instance has a handle that is not null; and the context behind the
    handle is inside the work function, with no cancellation pending,
    exactly when the instance is running. *)
Theorem reachable_invariants :
  forall s : state,
    reachable p s ->
    m_mutex s = false /\
    (m_running s = true -> m_joinable s = true) /\
    (m_joinable s = true -> m_thread_obj s <> None) /\
    (m_running s = true <->
     exists w, m_thread_obj s = Some (Executing w false)).
Proof.
  intros s [nm [evs Hexec]].
  pose proof (exec_wf p evs (Thread nm) s (fresh_wf nm) Hexec) as Hwf.
  clear Hexec nm evs. open_fields s. cbn in Hwf.
  destruct mutex; [discriminate|]. split; [reflexivity|].
  destruct running, joinable; try discriminate;
    destruct obj as [[w c|]|]; try destruct c; try discriminate;
    (split; [intros H; first [reflexivity | discriminate H]|]);
    (split; [intros H; first [discriminate | discriminate H]|]);
    split;
    first [ intros H; discriminate H
          | intros [w' H]; discriminate H
          | intros _; reflexivity
          | intros _; eexists; reflexivity ].
Qed.

End MoreHistories.

Lemma name_is_kept_witness :
  m_name finished = "worker"%string.
Proof.
  apply (name_is_kept Posix
           [call_start (spawned returning_work true); work_returns]).
  reflexivity.
Defined.

Lemma stop_request_lifetime_witness :
  m_request_stop stop_requested = true /\
  m_request_stop
    (set_start_finished_mutex true (set_request_stop false stop_requested))
  = false.
Proof.
  split; [reflexivity|].
  exact (stop_request_lifetime Posix (call_start system_error)
           stop_requested
           (set_start_finished_mutex true
              (set_request_stop false stop_requested))
           eq_refl).
Defined.

Lemma reachable_invariants_witness :
  m_mutex (started spinning_work) = false /\
  (m_running (started spinning_work) = true ->
   m_joinable (started spinning_work) = true) /\
  (m_joinable (started spinning_work) = true ->
   m_thread_obj (started spinning_work) <> None) /\
  (m_running (started spinning_work) = true <->
   exists w, m_thread_obj (started spinning_work) = Some (Executing w false)).
Proof.
  apply (reachable_invariants Win32 (started spinning_work)).
  exists "worker"%string, [call_start (spawned spinning_work true)].
  reflexivity.
Defined.

(** X9: between calls, no call of the lifecycle trips the assertion of
    wait() or dereferences a null handle: start, stop, wait, kill on
    every branch, getReturnValue and the destructor each return or wait
    for the context. *)
Theorem lifecycle_is_safe :
  forall s : state,
    wf s = true ->
    (forall e, harmless (start e s) = true) /\
    harmless (stop s) = true /\
    harmless (wait s) = true /\
    (forall p, harmless (kill p s) = true) /\
    (forall slot, harmless (getReturnValue slot s) = true) /\
    (forall p, harmless (destroy p s) = true).
Proof.
  intros s Hwf. open_state s.
  destruct mutex; [discriminate|].
  split; [|split; [|split; [|split; [|split]]]].
  - intros [|w polled]; destruct running; try reflexivity.
    unfold_calls; cbn. destruct (polled || negb (returns w)); reflexivity.
  - reflexivity.
  - destruct joinable; [|reflexivity].
    destruct obj as [t|]; [|destruct running; discriminate].
    open_thread t; try destruct pending; try destruct cancellable;
      destruct running; try discriminate; reflexivity.
  - intros p. destruct running, joinable; try discriminate;
      try reflexivity;
      (destruct obj as [t|]; [|discriminate]);
      open_thread t; try destruct pending; try destruct cancellable;
      try discriminate; destruct p as [|[|]|]; reflexivity.
  - intros slot. destruct running; reflexivity.
  - intros p. destruct running, joinable; try discriminate;
      try reflexivity;
      (destruct obj as [t|]; [|discriminate]);
      open_thread t; try destruct pending; try destruct cancellable;
      try discriminate; destruct p as [|[|]|]; reflexivity.
Qed.

Lemma lifecycle_is_safe_witness :
  harmless (wait (started spinning_work)) = true /\
  harmless (kill Posix (started returning_work)) = true.
Proof.
  destruct (lifecycle_is_safe (started spinning_work) eq_refl)
    as [_ [_ [Hw _]]].
  destruct (lifecycle_is_safe (started returning_work) eq_refl)
    as [_ [_ [_ [Hk _]]]].
  split; [exact Hw | exact (Hk Posix)].
Defined.

(** * Further properties of the platform services *)

Lemma in_int_bounds :
  forall z : Z, in_int z = true <-> INT_MIN <= z <= INT_MAX.
Proof.
  intros z. unfold in_int. rewrite andb_true_iff, !Z.leb_le. reflexivity.
Qed.

(** The C expression, when it is defined, has the value of the formula. *)
Lemma native_priority_value :
  forall HIGHEST min max prio v : Z,
    native_priority HIGHEST min max prio = Some v ->
    HIGHEST <> 0 /\ v = min + Z.quot (prio * (max - min)) HIGHEST.
Proof.
  intros HIGHEST min max prio v.
  unfold native_priority, int_sub, int_mul, int_div, int_add, int_result.
  destruct (in_int (max - min)); [|discriminate]. cbn [opt_bind].
  destruct (in_int (prio * (max - min))); [|discriminate]. cbn [opt_bind].
  destruct (Z.eqb_spec HIGHEST 0) as [|Hne]; [discriminate|].
  destruct (in_int (Z.quot (prio * (max - min)) HIGHEST)); [|discriminate].
  cbn [opt_bind].
  destruct (in_int (min + Z.quot (prio * (max - min)) HIGHEST));
    [|discriminate].
  intros H. injection H as <-. split; [exact Hne | reflexivity].
Qed.

(** X10: for a level from 0 to the highest, a priority range that is not
    empty and small enough for the product not to leave [int], the native
    priority is defined and lies within the range; level 0 gives the
    lowest priority and the highest level the highest. *)
Theorem native_priority_in_range :
  forall HIGHEST min max prio : Z,
    0 < HIGHEST ->
    0 <= prio <= HIGHEST ->
    min <= max ->
    in_int min = true ->
    in_int max = true ->
    in_int (HIGHEST * (max - min)) = true ->
    exists v,
      native_priority HIGHEST min max prio = Some v /\
      min <= v <= max /\
      (prio = 0 -> v = min) /\
      (prio = HIGHEST -> v = max).
Proof.
  intros HIGHEST min max prio HH Hp Hr Hmin Hmax Hprod.
  apply in_int_bounds in Hmin, Hmax, Hprod.
  assert (Hformula :
            priority_defined HIGHEST min max prio = true /\
            min <= min + Z.quot (prio * (max - min)) HIGHEST <= max /\
            (prio = 0 -> Z.quot (prio * (max - min)) HIGHEST = 0) /\
            (prio = HIGHEST ->
             Z.quot (prio * (max - min)) HIGHEST = max - min)).
  { unfold priority_defined, in_int, INT_MIN, INT_MAX in *.
    remember (max - min) as range eqn:Hdef.
    assert (Hrange : 0 <= range) by lia.
    assert (Hwide : range <= HIGHEST * range) by nia.
    assert (Hscaled : 0 <= prio * range <= HIGHEST * range) by nia.
    assert (Hq : 0 <= Z.quot (prio * range) HIGHEST <= range).
    { rewrite Z.quot_div_nonneg by lia. split.
      - apply Z.div_pos; lia.
      - apply Z.div_le_upper_bound; lia. }
    split; [|split; [lia|split]].
    - repeat (apply andb_true_intro; split);
        try (apply Z.leb_le; lia).
      apply negb_true_iff, Z.eqb_neq. lia.
    - intros ->. rewrite Z.mul_0_l. apply Z.quot_0_l. lia.
    - intros ->. rewrite Z.mul_comm. apply Z.quot_mul. lia. }
  destruct Hformula as [Hdefined [Hbounds [Hlow Hhigh]]].
  exists (min + Z.quot (prio * (max - min)) HIGHEST). split.
  - apply native_priority_defined. exact Hdefined.
  - split; [exact Hbounds|]. split.
    + intros H0. rewrite (Hlow H0). lia.
    + intros HH'. rewrite (Hhigh HH'). lia.
Qed.

Lemma native_priority_in_range_witness :
  exists v,
    native_priority 4 1 99 3 = Some v /\
    1 <= v <= 99 /\ (3 = 0 -> v = 1) /\ (3 = 4 -> v = 99).
Proof.
  apply (native_priority_in_range 4 1 99 3);
    first [reflexivity | split; discriminate | discriminate].
Defined.

(** X11: the native priority does not decrease with the level: of two
    levels for which the expression is defined, over a range that is not
    empty, the higher gets a native priority at least as high.  Levels
    above the highest are not cut off. *)
Theorem native_priority_monotone :
  forall HIGHEST min max prio1 prio2 v1 v2 : Z,
    0 < HIGHEST ->
    min <= max ->
    prio1 <= prio2 ->
    native_priority HIGHEST min max prio1 = Some v1 ->
    native_priority HIGHEST min max prio2 = Some v2 ->
    v1 <= v2.
Proof.
  intros HIGHEST min max prio1 prio2 v1 v2 HH Hr Hle H1 H2.
  apply native_priority_value in H1, H2.
  destruct H1 as [_ ->]. destruct H2 as [_ ->].
  apply Z.add_le_mono_l. apply Z.quot_le_mono; [exact HH|].
  apply Z.mul_le_mono_nonneg_r; lia.
Qed.

Lemma native_priority_monotone_witness :
  74 <= 148.
Proof.
  apply (native_priority_monotone 4 1 99 3 6 74 148);
    first [reflexivity | discriminate].
Defined.

(** X12: bindToProcessor returns false, for every processor number and in
    every state of the instance, a null handle included, on an Android
    build, whichever other platform macros are defined, and on a build
    for none of the platforms it knows. *)
Theorem bindToProcessor_unavailable :
  forall (b : build) (os : affinity_os) (proc_number : Z) (s : state),
    ANDROID b = true \/
    (WIN_THREADS b = false /\ FreeBSD_version b < 702106 /\
     linux b = false /\ sun b = false /\ AIX b = false /\
     hpux b = false /\ APPLE b = false) ->
    bindToProcessor b os proc_number s = Ret false s.
Proof.
  intros b os n s [Handroid | [Hw [Hf [Hl [Hs [Ha [Hh Hap]]]]]]];
    unfold bindToProcessor.
  - rewrite Handroid. reflexivity.
  - destruct (ANDROID b); [reflexivity|].
    rewrite Hw, Hl, Hs, Ha, Hh, Hap.
    apply Z.leb_gt in Hf. rewrite Hf. reflexivity.
Qed.

Lemma bindToProcessor_unavailable_witness :
  bindToProcessor android_build obliging_os 0 (Thread "worker")
  = Ret false (Thread "worker").
Proof.
  apply (bindToProcessor_unavailable android_build obliging_os 0
           (Thread "worker")).
  left. reflexivity.
Defined.

(** X13: on the Windows branch, with a handle that is not null, the mask
    handed to SetThreadAffinityMask for a processor number up to 30 has
    the bit of that processor set and no other, and the call returns
    whether the previous mask it is given back is not 0.  For processor
    31 the mask is the [int] INT_MIN, and from 32 on the shift is not
    defined. *)
Theorem windows_affinity_mask :
  forall (b : build) (os : affinity_os) (proc_number : Z) (s : state)
         (t : std_thread),
    ANDROID b = false ->
    WIN_THREADS b = true ->
    m_thread_obj s = Some t ->
    (0 <= proc_number <= 30 ->
     (forall i, Z.testbit (2 ^ proc_number) i = (proc_number =? i)) /\
     bindToProcessor b os proc_number s
     = Ret (negb (SetThreadAffinityMask os t (2 ^ proc_number) =? 0)) s) /\
    (proc_number = 31 ->
     bindToProcessor b os proc_number s
     = Ret (negb (SetThreadAffinityMask os t INT_MIN =? 0)) s) /\
    (32 <= proc_number ->
     bindToProcessor b os proc_number s = Undefined).
Proof.
  intros b os n s t Handroid Hwin Hobj.
  unfold bindToProcessor, getThreadHandle, bind, ret, undefined.
  rewrite Handroid, Hwin, Hobj.
  unfold affinity_mask, int_shl, INT_MAX, INT_MIN. rewrite Z.mul_1_l.
  split; [|split].
  - intros Hn. split; [intros i; apply Z.pow2_bits_eqb; lia|].
    assert (Hpow : 2 ^ n <= 2 ^ 30) by (apply Z.pow_le_mono_r; lia).
    change (2 ^ 30) with 1073741824 in Hpow.
    change (2 ^ 32) with 4294967296. change (2 ^ 31 - 1) with 2147483647.
    replace (0 <=? n) with true by (symmetry; apply Z.leb_le; lia).
    replace (n <? 32) with true by (symmetry; apply Z.ltb_lt; lia).
    replace (2 ^ n <? 4294967296) with true
      by (symmetry; apply Z.ltb_lt; lia).
    replace (2 ^ n <=? 2147483647) with true
      by (symmetry; apply Z.leb_le; lia).
    reflexivity.
  - intros ->. reflexivity.
  - intros Hn.
    replace (n <? 32) with false by (symmetry; apply Z.ltb_ge; lia).
    rewrite andb_false_r. reflexivity.
Qed.

Lemma windows_affinity_mask_witness :
  bindToProcessor windows_build obliging_os 3 (started spinning_work)
  = Ret true (started spinning_work) /\
  bindToProcessor windows_build obliging_os 32 (started spinning_work)
  = Undefined.
Proof.
  destruct (windows_affinity_mask windows_build obliging_os 3
              (started spinning_work) (Executing spinning_work false)
              eq_refl eq_refl eq_refl) as [Hlow _].
  destruct (windows_affinity_mask windows_build obliging_os 32
              (started spinning_work) (Executing spinning_work false)
              eq_refl eq_refl eq_refl) as [_ [_ Hhigh]].
  split.
  - apply Hlow. split; discriminate.
  - apply Hhigh. discriminate.
Defined.
